(** * OSPF header dissector of jspcap ([jspcap/link/ospf.py])

    A shallow embedding of the OSPF analyser: the byte cursor it reads
    from, the two code tables, the record (a Python [dict], insertion
    ordered) it builds, and the [OSPF] object around it. *)

From Stdlib Require Import NArith Ascii DecimalString DecimalPos DecimalN.
From Stdlib.Strings Require Byte.
From Stdlib Require HexadecimalString HexadecimalN.
From stdpp Require Import base option list gmap strings.


#[local] Set Warnings "-register-all".
Local Open Scope N_scope.
Local Open Scope string_scope.

Abbreviation byte := Byte.byte.

(** ** Python values held by the decoded record *)

Inductive value : Type :=
| VNone
| VInt (n : N)
| VStr (s : string)
| VBytes (b : list byte)
| VDict (d : list (string * value)).

(** A [dict] keeps its keys in insertion order. *)
Definition dict : Type := list (string * value).

(** [d.get(k)] on a record, [None] when the key is absent. *)
Fixpoint dict_get (d : dict) (k : string) : option value :=
  match d with
  | [] => None
  | (k', v) :: d' => if String.eqb k' k then Some v else dict_get d' k
  end.

(** [d[k] = v]: an existing key keeps its place, a new one goes last. *)
Fixpoint dict_set (d : dict) (k : string) (v : value) : dict :=
  match d with
  | [] => [(k, v)]
  | (k', v') :: d' =>
      if String.eqb k' k then (k', v) :: d' else (k', v') :: dict_set d' k v
  end.

Definition keys (d : dict) : list string := d.*1.

(** Python truthiness, as used by [or]. *)
Definition truthy (v : value) : bool :=
  match v with
  | VNone => false
  | VInt n => negb (n =? 0)%N
  | VStr s => negb (String.eqb s "")
  | VBytes b => negb (bool_decide (b = []))
  | VDict d => match d with [] => false | _ => true end
  end.

(** [a or b] *)
Definition py_or (a b : value) : value := if truthy a then a else b.

(** [str(n)] of a non-negative integer. *)
Definition str (n : N) : string := NilZero.string_of_uint (N.to_uint n).

(** [sep.join(l)] *)
Fixpoint join (sep : string) (l : list string) : string :=
  match l with
  | [] => ""
  | [x] => x
  | x :: rest => x ++ sep ++ join sep rest
  end.

(** ** Code tables *)

(** OSPF Packet Types *)
Definition TYPE : gmap N string :=
  <[1 := "Hello"]> (
  <[2 := "Database Description"]> (
  <[3 := "Link State Request"]> (
  <[4 := "Link State Update"]> (
  <[5 := "Link State Acknowledgment"]> ∅)))).

(** Authentication Types *)
Definition AUTH : gmap N string :=
  <[0 := "Null Authentication"]> (
  <[1 := "Simple Password"]> (
  <[2 := "Cryptographic Authentication"]> ∅)).

(** [tbl.get(code)] on a code table: the name, or [None]. *)
Definition get (tbl : gmap N string) (code : N) : value :=
  from_option VStr VNone (tbl !! code).

(** ** The byte cursor *)

(** Modelled from the spec: the one decode failure of the error taxonomy,
    raised when fewer bytes are available than the current field
    requires. *)
Inductive error : Type := TruncatedInput.

Inductive result (A : Type) : Type :=
| Ok (a : A)
| Raise (e : error).
Arguments Ok {A} a.
Arguments Raise {A} e.

(** Modelled from the spec: the file object behind [self._file] is not
    among the sources.  ByteCursor: an immutable byte sequence and an
    integer offset into it. *)
Record ByteCursor : Type := mkCursor { buffer : list byte; position : nat }.

(** A read either raises or returns its value and the advanced cursor. *)
Definition M (A : Type) : Type := ByteCursor -> result (A * ByteCursor).

#[global] Instance M_ret : MRet M := fun A a c => Ok (a, c).
#[global] Instance M_bind : MBind M := fun A B k m c =>
  match m c with
  | Ok (a, c') => k a c'
  | Raise e => Raise e
  end.

(** Modelled from the spec: ByteCursor [remaining()] returns
    [len(buffer) - position], non-negative. *)
Definition remaining (c : ByteCursor) : nat := length (buffer c) - position c.

(** The bytes from the cursor's position on. *)
Definition rest (c : ByteCursor) : list byte := drop (position c) (buffer c).

Definition advance (n : nat) (c : ByteCursor) : ByteCursor :=
  mkCursor (buffer c) (position c + n).

(** Modelled from the spec: ByteCursor [read(n)] returns the next [n]
    bytes and advances the position by [n]; it fails with
    [TruncatedInput] if fewer than [n] bytes remain. *)
Definition read (n : nat) : M (list byte) := fun c =>
  if decide (n <= remaining c)%nat
  then Ok (take n (rest c), advance n c)
  else Raise TruncatedInput.

(** Unsigned big-endian value of a byte string. *)
Definition be_uint (bs : list byte) : N :=
  foldl (fun acc b => acc * 256 + Byte.to_N b) 0 bs.

(** Modelled from the spec: ByteCursor [read_uint(n)] reads [n] bytes and
    interprets them as an unsigned big-endian integer, failing with
    [TruncatedInput] under the same condition as [read].  The widths the
    dissector asks for are 1, 2 and 4. *)
Definition read_uint (n : nat) : M N :=
  bs ← read n; mret (be_uint bs).

(** Modelled from the spec: [Link._read_fileng] belongs to the base class,
    which is not among the sources; it is the cursor's [read]. *)
Definition _read_fileng (size : nat) : M (list byte) := read size.

(** Modelled from the spec: [Link._read_unpack] belongs to the base class,
    which is not among the sources; it is the cursor's [read_uint]. *)
Definition _read_unpack (size : nat) : M N := read_uint size.

(** Modelled from the spec: the key under which the layer chain files what
    follows a header; the spec names it by example only. *)
Definition next_layer_slot : string := "next_layer".

(** Modelled from the spec: [Link._read_next_layer] belongs to the base
    class, which is not among the sources.  LayerChain: the chain inspects
    the cursor's [remaining()]; [read_ospf] names no next protocol, so the
    chain attaches the remaining raw bytes verbatim under its slot, or
    omits the slot if none remain. *)
Definition _read_next_layer (dict_ : dict) : M dict := fun c =>
  match remaining c with
  | O => Ok (dict_, c)
  | S _ as n =>
      (raw ← read n; mret (dict_set dict_ next_layer_slot (VBytes raw))) c
  end.

(** Modelled from the spec: the class [Info] is not among the sources.
    FieldRecord: a read-only snapshot of the fully decoded header; it
    holds the mapping it was built from. *)
Definition Info (dict_ : dict) : dict := dict_.

(** ** The dissector *)

Module OSPF.

Definition _read_id_numbers : M value :=
  _byte ← _read_fileng 4;
  let _addr := join "." ((fun b => str (Byte.to_N b)) <$> _byte) in
  mret (VStr _addr).

(** Read Authentication field when Cryptographic Authentication is
    employed. *)
Definition _read_encrypt_auth : M value :=
  _resv ← _read_fileng 2;
  _keys ← _read_unpack 1;
  _alen ← _read_unpack 1;
  _seqn ← _read_unpack 4;
  let auth : dict :=
    [ ("resv", VBytes _resv);
      ("key_id", VInt _keys);
      ("len", VInt _alen);
      ("seq", VInt _seqn) ] in
  mret (VDict auth).

(** The body of [read_ospf] up to the hand-over to the next layer: the
    seven reads, the [dict(...)] literal and the [auth] assignment.  Its
    result is the [ospf] dictionary passed on. *)
Definition read_ospf_header : M dict :=
  _vers ← _read_unpack 1;
  _type ← _read_unpack 1;
  _tlen ← _read_unpack 2;
  _rtid ← _read_id_numbers;
  _area ← _read_id_numbers;
  _csum ← _read_fileng 2;
  _autp ← _read_unpack 2;
  let ospf : dict :=
    [ ("version", VInt _vers);
      ("type", get TYPE _type);
      ("len", VInt _tlen);
      ("router_id", _rtid);
      ("area_id", _area);
      ("chksum", VBytes _csum);
      ("autype", py_or (get AUTH _autp) (VStr "Reserved")) ] in
  if (_autp =? 2)%N then
    auth ← _read_encrypt_auth;
    mret (dict_set ospf "auth" auth)
  else
    auth ← _read_fileng 8;
    mret (dict_set ospf "auth" (VBytes auth)).

(** Read Open Shortest Path First. *)
Definition read_ospf : M dict :=
  ospf ← read_ospf_header;
  _read_next_layer ospf.

(** An analyser object: the file it read from and the record it holds. *)
Record t : Type := mk { _file : ByteCursor; _info : dict }.

Definition __init__ (file : ByteCursor) : result t :=
  match read_ospf file with
  | Ok (d, file') => Ok (mk file' (Info d))
  | Raise e => Raise e
  end.

Definition name (self : t) : string := "Open Shortest Path First".
Definition info (self : t) : dict := _info self.
Definition length (self : t) : N := 24.
Definition type (self : t) : option value := dict_get (_info self) "type".
Definition __len__ (self : t) : N := 24.
Definition __length_hint__ (self : t) : N := 24.

End OSPF.

(** Decoding a byte buffer: a fresh cursor at its start, handed to the
    analyser's constructor. *)
Definition decode (buf : list byte) : result OSPF.t :=
  OSPF.__init__ (mkCursor buf 0).

(** [n] bytes of [bs] from offset [off]. *)
Definition slice (off n : nat) (bs : list byte) : list byte :=
  take n (drop off bs).

(** The dotted rendering [_read_id_numbers] gives to a byte string. *)
Definition dotted (bs : list byte) : string :=
  join "." ((fun b => str (Byte.to_N b)) <$> bs).

(** The concrete scenario of the testable properties: version 2, Hello,
    router 192.0.2.1, area 0.0.0.1, null authentication. *)
Definition sample_hello : list byte :=
  [ Byte.x02; Byte.x01; Byte.x00; Byte.x2c;
    Byte.xc0; Byte.x00; Byte.x02; Byte.x01;
    Byte.x00; Byte.x00; Byte.x00; Byte.x01;
    Byte.xab; Byte.xcd; Byte.x00; Byte.x00;
    Byte.xde; Byte.xad; Byte.xbe; Byte.xef;
    Byte.xca; Byte.xfe; Byte.xba; Byte.xbe ].

(** The same header with [b] as its type byte, [hi lo] as its autype
    bytes and [tail] after its 24 bytes. *)
Definition sample_with (b hi lo : byte) (tail : list byte) : list byte :=
  [ Byte.x02; b; Byte.x00; Byte.x2c;
    Byte.xc0; Byte.x00; Byte.x02; Byte.x01;
    Byte.x00; Byte.x00; Byte.x00; Byte.x01;
    Byte.xab; Byte.xcd; hi; lo;
    Byte.x00; Byte.x00; Byte.x07; Byte.x10;
    Byte.x00; Byte.x00; Byte.x01; Byte.x02 ] ++ tail.

(** The raw codes of a header, by byte offset. *)
Definition type_code (bs : list byte) : N := be_uint (slice 1 1 bs).
Definition autype_code (bs : list byte) : N := be_uint (slice 14 2 bs).

(** What a caller sees of a constructor call: the record, or the error. *)
Definition outcome (r : result OSPF.t) : result dict :=
  match r with
  | Ok self => Ok (OSPF.info self)
  | Raise e => Raise e
  end.

(** ** Fixed-width readers

    A reader has fixed width [n] when it succeeds exactly on the cursors
    with at least [n] bytes remaining, and then leaves the cursor [n]
    bytes further on; on every other cursor it raises [TruncatedInput]. *)

Definition fixed_width {A} (n : nat) (m : M A) : Prop :=
  forall c,
    ((n <= remaining c)%nat -> exists a, m c = Ok (a, advance n c)) /\
    ((remaining c < n)%nat -> m c = Raise TruncatedInput).

(** ** The decoded record in closed form

    What the reads of [read_ospf_header] produce on the bytes [bs] ahead of
    the cursor, by byte offset, as established by [read_ospf_header_ok]. *)

Definition auth_at (bs : list byte) : value :=
  if (be_uint (slice 14 2 bs) =? 2)%N then
    VDict [ ("resv", VBytes (slice 16 2 bs));
            ("key_id", VInt (be_uint (slice 18 1 bs)));
            ("len", VInt (be_uint (slice 19 1 bs)));
            ("seq", VInt (be_uint (slice 20 4 bs))) ]
  else VBytes (slice 16 8 bs).

Definition header_at (bs : list byte) : dict :=
  [ ("version", VInt (be_uint (slice 0 1 bs)));
    ("type", get TYPE (be_uint (slice 1 1 bs)));
    ("len", VInt (be_uint (slice 2 2 bs)));
    ("router_id", VStr (dotted (slice 4 4 bs)));
    ("area_id", VStr (dotted (slice 8 4 bs)));
    ("chksum", VBytes (slice 12 2 bs));
    ("autype", py_or (get AUTH (be_uint (slice 14 2 bs))) (VStr "Reserved"));
    ("auth", auth_at bs) ].

(** The record after the layer chain has seen the bytes behind the header. *)
Definition record_at (bs : list byte) : dict :=
  match drop 24 bs with
  | [] => header_at bs
  | raw => dict_set (header_at bs) next_layer_slot (VBytes raw)
  end.

Definition ospf_keys : list string :=
  ["version"; "type"; "len"; "router_id"; "area_id"; "chksum"; "autype";
   "auth"].


(** The number of periods in a string. *)
Fixpoint count_dots (s : string) : nat :=
  match s with
  | EmptyString => 0
  | String c s' => ((if Ascii.eqb c "."%char then 1 else 0) + count_dots s')%nat
  end.

(** ** The registry name helper ([_vendor/http_para_name.py])

    Strings are sequences of code points below 256; on these
    [re.IGNORECASE] folds exactly the ASCII letters, and [str.upper] is
    applied to the output of [hex] only.  Names with a code point from 256
    on are not among these strings: of those, [re.IGNORECASE] also takes
    U+0130 and U+0131 for i and U+017F for s. *)

Module HttpParaName.

(** ASCII case folding of one character. *)
Definition lower_char (c : ascii) : ascii :=
  let n := N_of_ascii c in
  if ((65 <=? n) && (n <=? 90))%N then ascii_of_N (n + 32) else c.

Definition upper_char (c : ascii) : ascii :=
  let n := N_of_ascii c in
  if ((97 <=? n) && (n <=? 122))%N then ascii_of_N (n - 32) else c.

Fixpoint map_chars (f : ascii -> ascii) (s : string) : string :=
  match s with
  | EmptyString => EmptyString
  | String c s' => String (f c) (map_chars f s')
  end.

(** [s.upper()] *)
Definition upper (s : string) : string := map_chars upper_char s.

Definition lower (s : string) : string := map_chars lower_char s.

(** [re.match(w1|w2|..., s, re.IGNORECASE)] for literal words: some word
    is, letter case apart, a prefix of [s]. *)
Definition re_match_ignorecase (words : list string) (s : string) : bool :=
  existsb (fun w => String.prefix (lower w) (lower s)) words.

(** [hex(code)]: lower-case digits after [0x], a leading minus sign for a
    negative code. *)
Definition hex_digits (n : N) : string :=
  HexadecimalString.NilZero.string_of_uint (N.to_hex_uint n).

Definition hex (code : Z) : string :=
  if (code <? 0)%Z then "-0x" ++ hex_digits (Z.abs_N code)
  else "0x" ++ hex_digits (Z.abs_N code).

(** [s[n:]] *)
Fixpoint drop_chars (n : nat) (s : string) : string :=
  match n, s with
  | O, _ => s
  | S n', EmptyString => EmptyString
  | S n', String _ s' => drop_chars n' s'
  end.

Fixpoint zeros (n : nat) : string :=
  match n with
  | O => EmptyString
  | S n' => String "0" (zeros n')
  end.

(** [s.zfill(width)]: zeros go to the left, after a leading sign. *)
Definition zfill (width : nat) (s : string) : string :=
  let n := String.length s in
  if (width <=? n)%nat then s
  else
    match s with
    | String c s' =>
        if Ascii.eqb c "+" || Ascii.eqb c "-"
        then String c (zeros (width - n) ++ s')
        else zeros (width - n) ++ s
    | EmptyString => zeros (width - n)
    end.

(** The bracketed code [hex(code)[2:].upper().zfill(4)]. *)
Definition code_tag (code : Z) : string :=
  zfill 4 (upper (drop_chars 2 (hex code))).

Definition rename (name : string) (code : Z) : string :=
  if re_match_ignorecase
       ["Reserved"; "Unassigned"; "Deprecated"; "Experimental"] name
  then name ++ " [0x" ++ code_tag code ++ "]"
  else name.

End HttpParaName.

(** A test holds of the [fuel] integers from [c] upwards. *)
Fixpoint all_from (fuel : nat) (c : Z) (f : Z -> bool) : bool :=
  match fuel with
  | O => true
  | S k => f c && all_from k (c + 1)%Z f
  end.

(** ** Runs of the analyser over the module's globals

    [TYPE] and [AUTH] are module-level dictionaries, objects that a
    statement of the module could write to.  A run is given the globals as
    it finds them and hands them back as it leaves them, also when it
    raises; [read_ospf] is written out once more over them, each global
    name evaluated where the source evaluates it. *)

Record Globals : Type :=
  mkGlobals { g_TYPE : gmap N string; g_AUTH : gmap N string }.

(** The globals as the module's top level leaves them. *)
Definition module_globals : Globals := mkGlobals TYPE AUTH.

Inductive run_result (A : Type) : Type :=
| Returns (a : A) (c : ByteCursor) (g : Globals)
| Raises (e : error) (g : Globals).
Arguments Returns {A} a c g.
Arguments Raises {A} e g.

Definition MG (A : Type) : Type := Globals -> ByteCursor -> run_result A.

#[global] Instance MG_ret : MRet MG := fun A a g c => Returns a c g.
#[global] Instance MG_bind : MBind MG := fun A B k m g c =>
  match m g c with
  | Returns a c' g' => k a g' c'
  | Raises e g' => Raises e g'
  end.

(** A method that works on the file only. *)
Definition on_file {A} (m : M A) : MG A := fun g c =>
  match m c with
  | Ok (a, c') => Returns a c' g
  | Raise e => Raises e g
  end.

(** The value of a global name. *)
Definition load {A} (f : Globals -> A) : MG A := fun g c => Returns (f g) c g.

Definition read_ospf_run : MG dict :=
  _vers ← on_file (_read_unpack 1);
  _type ← on_file (_read_unpack 1);
  _tlen ← on_file (_read_unpack 2);
  _rtid ← on_file OSPF._read_id_numbers;
  _area ← on_file OSPF._read_id_numbers;
  _csum ← on_file (_read_fileng 2);
  _autp ← on_file (_read_unpack 2);
  TYPE_ ← load g_TYPE;
  AUTH_ ← load g_AUTH;
  let ospf : dict :=
    [ ("version", VInt _vers);
      ("type", get TYPE_ _type);
      ("len", VInt _tlen);
      ("router_id", _rtid);
      ("area_id", _area);
      ("chksum", VBytes _csum);
      ("autype", py_or (get AUTH_ _autp) (VStr "Reserved")) ] in
  ospf ← (if (_autp =? 2)%N then
            auth ← on_file OSPF._read_encrypt_auth;
            mret (dict_set ospf "auth" auth)
          else
            auth ← on_file (_read_fileng 8);
            mret (dict_set ospf "auth" (VBytes auth)));
  on_file (_read_next_layer ospf).

(** [OSPF(_file)] *)
Definition init_run (file : ByteCursor) (g : Globals) : run_result OSPF.t :=
  match read_ospf_run g file with
  | Returns d file' g' => Returns (OSPF.mk file' (Info d)) file' g'
  | Raises e g' => Raises e g'
  end.

(** The globals a run leaves behind, and what its caller sees of it. *)
Definition globals_after {A} (r : run_result A) : Globals :=
  match r with
  | Returns _ _ g => g
  | Raises _ g => g
  end.

Definition record_of (r : run_result OSPF.t) : result dict :=
  match r with
  | Returns self _ _ => Ok (OSPF.info self)
  | Raises e _ => Raise e
  end.

(** Two runs end alike: the same value with the same bytes left ahead, or
    the same error; and the same globals. *)
Definition same_run {A} (r1 r2 : run_result A) : Prop :=
  match r1, r2 with
  | Returns a1 c1 g1, Returns a2 c2 g2 => a1 = a2 /\ rest c1 = rest c2 /\ g1 = g2
  | Raises e1 g1, Raises e2 g2 => e1 = e2 /\ g1 = g2
  | _, _ => False
  end.

(** A run that depends on the globals and on the bytes ahead of the cursor
    only, and leaves the globals as it found them. *)
Definition reads_only {A} (m : MG A) : Prop :=
  forall g c1 c2,
    rest c1 = rest c2 ->
    same_run (m g c1) (m g c2) /\ globals_after (m g c1) = g.

(** The same for a method that works on the file only. *)
Definition same_read {A} (r1 r2 : result (A * ByteCursor)) : Prop :=
  match r1, r2 with
  | Ok (a1, c1), Ok (a2, c2) => a1 = a2 /\ rest c1 = rest c2
  | Raise e1, Raise e2 => e1 = e2
  | _, _ => False
  end.

Definition ahead_only {A} (m : M A) : Prop :=
  forall c1 c2, rest c1 = rest c2 -> same_read (m c1) (m c2).

(** * Lemmas *)

(** ** Dictionaries *)

Lemma dict_get_set_eq (d : dict) k v : dict_get (dict_set d k v) k = Some v.
Proof.
  induction d as [|[k' v'] d IH]; simpl.
  - by rewrite String.eqb_refl.
  - destruct (String.eqb k' k) eqn:E; simpl; rewrite E; [done | exact IH].
Qed.

Lemma dict_get_set_ne (d : dict) k k' v :
  k <> k' -> dict_get (dict_set d k v) k' = dict_get d k'.
Proof.
  intros Hne. induction d as [|[k0 v0] d IH]; simpl.
  - destruct (String.eqb k k') eqn:E; [|done].
    apply String.eqb_eq in E. contradiction.
  - destruct (String.eqb k0 k) eqn:E; simpl.
    + apply String.eqb_eq in E. subst k0.
      destruct (String.eqb k k') eqn:E'; [|done].
      apply String.eqb_eq in E'. contradiction.
    + by rewrite IH.
Qed.

Lemma keys_set_fresh (d : dict) (k : string) v :
  k ∉@{list string} keys d -> keys (dict_set d k v) = (keys d ++ [k])%list.
Proof.
  unfold keys. induction d as [|[k0 v0] d IH]; simpl; [done|].
  intros Hk. apply not_elem_of_cons in Hk as [Hne Hk].
  destruct (String.eqb k0 k) eqn:E.
  - apply String.eqb_eq in E. congruence.
  - simpl. f_equal. by apply IH.
Qed.

(** ** The cursor *)

Lemma remaining_rest c : remaining c = length (rest c).
Proof. unfold remaining, rest. by rewrite length_drop. Qed.

Lemma rest_advance n c : rest (advance n c) = drop n (rest c).
Proof. unfold rest, advance. simpl. by rewrite drop_drop. Qed.

Lemma remaining_advance n c : remaining (advance n c) = (remaining c - n)%nat.
Proof. unfold remaining, advance. simpl. lia. Qed.

Lemma advance_advance n k c : advance k (advance n c) = advance (n + k) c.
Proof. unfold advance. simpl. f_equal. lia. Qed.

Lemma advance_0 c : advance 0 c = c.
Proof. destruct c as [b p]. unfold advance. simpl. f_equal. lia. Qed.

Lemma read_take n c :
  (n <= length (rest c))%nat -> read n c = Ok (take n (rest c), advance n c).
Proof.
  intros Hn. unfold read. rewrite remaining_rest.
  destruct (decide _); [done | contradiction].
Qed.

Lemma read_short n c :
  (remaining c < n)%nat -> read n c = Raise TruncatedInput.
Proof. intros Hn. unfold read. destruct (decide _); [lia | done]. Qed.

Lemma bind_unfold {A B} (m : M A) (k : A -> M B) c :
  (m ≫= k) c = match m c with Ok (a, c') => k a c' | Raise e => Raise e end.
Proof. reflexivity. Qed.

Lemma ret_unfold {A} (a : A) c : (mret a : M A) c = Ok (a, c).
Proof. reflexivity. Qed.

Lemma fixed_width_ret {A} (a : A) : fixed_width 0 (mret a).
Proof.
  intros c. split; [|lia]. intros _. exists a.
  by rewrite advance_0.
Qed.

Lemma fixed_width_read n : fixed_width n (read n).
Proof.
  intros c. split; intros Hn.
  - eexists. apply read_take. by rewrite <- remaining_rest.
  - by apply read_short.
Qed.

Lemma fixed_width_bind {A B} n k (m : M A) (f : A -> M B) :
  fixed_width n m -> (forall a, fixed_width k (f a)) ->
  fixed_width (n + k) (m ≫= f).
Proof.
  intros Hm Hf c. rewrite bind_unfold.
  destruct (Hm c) as [Hok Hko].
  destruct (decide (n <= remaining c)%nat) as [Hn|Hn].
  - destruct (Hok Hn) as [a ->].
    destruct (Hf a (advance n c)) as [Hok' Hko'].
    rewrite remaining_advance in Hok', Hko'. split; intros Hnk.
    + destruct Hok' as [b ->]; [lia|]. exists b. by rewrite advance_advance.
    + apply Hko'. lia.
  - rewrite Hko by lia. split; [lia | done].
Qed.

Lemma fixed_width_if {A} n (b : bool) (m1 m2 : M A) :
  fixed_width n m1 -> fixed_width n m2 ->
  fixed_width n (if b then m1 else m2).
Proof. by destruct b. Qed.

Lemma fixed_width_read_uint n : fixed_width n (read_uint n).
Proof.
  unfold read_uint. replace n with (n + 0)%nat at 1 by lia.
  apply fixed_width_bind; [apply fixed_width_read|].
  intros bs. apply fixed_width_ret.
Qed.

Lemma fixed_width_read_id_numbers : fixed_width 4 OSPF._read_id_numbers.
Proof.
  unfold OSPF._read_id_numbers, _read_fileng.
  apply (fixed_width_bind 4 0); [apply fixed_width_read|].
  intros bs. apply fixed_width_ret.
Qed.

Lemma fixed_width_read_encrypt_auth : fixed_width 8 OSPF._read_encrypt_auth.
Proof.
  unfold OSPF._read_encrypt_auth, _read_fileng, _read_unpack.
  apply (fixed_width_bind 2 6); [apply fixed_width_read|]. intros ?.
  apply (fixed_width_bind 1 5); [apply fixed_width_read_uint|]. intros ?.
  apply (fixed_width_bind 1 4); [apply fixed_width_read_uint|]. intros ?.
  apply (fixed_width_bind 4 0); [apply fixed_width_read_uint|]. intros ?.
  apply fixed_width_ret.
Qed.

Lemma fixed_width_read_ospf_header : fixed_width 24 OSPF.read_ospf_header.
Proof.
  unfold OSPF.read_ospf_header, _read_fileng, _read_unpack.
  apply (fixed_width_bind 1 23); [apply fixed_width_read_uint|]. intros ?.
  apply (fixed_width_bind 1 22); [apply fixed_width_read_uint|]. intros ?.
  apply (fixed_width_bind 2 20); [apply fixed_width_read_uint|]. intros ?.
  apply (fixed_width_bind 4 16); [apply fixed_width_read_id_numbers|]. intros ?.
  apply (fixed_width_bind 4 12); [apply fixed_width_read_id_numbers|]. intros ?.
  apply (fixed_width_bind 2 10); [apply fixed_width_read|]. intros ?.
  apply (fixed_width_bind 2 8); [apply fixed_width_read_uint|]. intros autp.
  apply fixed_width_if.
  - apply (fixed_width_bind 8 0); [apply fixed_width_read_encrypt_auth|].
    intros ?. apply fixed_width_ret.
  - apply (fixed_width_bind 8 0); [apply fixed_width_read|].
    intros ?. apply fixed_width_ret.
Qed.

Lemma long_list_inv {A} (l : list A) :
  (24 <= length l)%nat ->
  exists b0 b1 b2 b3 b4 b5 b6 b7 b8 b9 b10 b11 b12 b13 b14 b15 b16 b17 b18
         b19 b20 b21 b22 b23 tl,
    l = b0 :: b1 :: b2 :: b3 :: b4 :: b5 :: b6 :: b7 :: b8 :: b9 :: b10
        :: b11 :: b12 :: b13 :: b14 :: b15 :: b16 :: b17 :: b18 :: b19
        :: b20 :: b21 :: b22 :: b23 :: tl.
Proof.
  intros Hl.
  do 24 (destruct l as [|? l]; [simpl in Hl; lia|]).
  repeat eexists.
Qed.

(** One read whose bytes are known to be ahead of the cursor. *)
Ltac read_step H :=
  rewrite ?bind_unfold;
  rewrite read_take by (rewrite ?rest_advance, H; cbn [skipn length]; lia);
  rewrite ?rest_advance, H; cbn [firstn skipn];
  rewrite ?ret_unfold; cbv beta iota.

Lemma read_ospf_header_ok c :
  (24 <= remaining c)%nat ->
  OSPF.read_ospf_header c = Ok (header_at (rest c), advance 24 c).
Proof.
  intros Hc. rewrite remaining_rest in Hc.
  destruct (long_list_inv _ Hc)
    as (b0&b1&b2&b3&b4&b5&b6&b7&b8&b9&b10&b11&b12&b13&b14&b15&b16&b17&b18
        &b19&b20&b21&b22&b23&tl&H).
  unfold OSPF.read_ospf_header, OSPF._read_id_numbers, OSPF._read_encrypt_auth,
    _read_unpack, _read_fileng, read_uint.
  do 7 read_step H.
  unfold header_at, auth_at, dotted, slice. rewrite ?H. cbn [firstn skipn].
  destruct (be_uint [b14; b15] =? 2)%N.
  - do 4 read_step H. rewrite !advance_advance. reflexivity.
  - read_step H. rewrite !advance_advance. reflexivity.
Qed.

Lemma read_next_layer_run (d : dict) c :
  _read_next_layer d c =
  Ok (match rest c with
      | [] => d
      | raw => dict_set d next_layer_slot (VBytes raw)
      end, advance (remaining c) c).
Proof.
  unfold _read_next_layer.
  destruct (remaining c) as [|n] eqn:Hr.
  - rewrite remaining_rest in Hr. apply nil_length_inv in Hr.
    by rewrite Hr, advance_0.
  - rewrite bind_unfold, read_take by (rewrite <- remaining_rest; lia).
    rewrite ret_unfold. rewrite take_ge by (rewrite <- remaining_rest; lia).
    destruct (rest c) eqn:Hrest; [|done].
    rewrite remaining_rest, Hrest in Hr. discriminate.
Qed.

Lemma read_ospf_ok c :
  (24 <= remaining c)%nat ->
  OSPF.read_ospf c = Ok (record_at (rest c), advance (remaining c) c).
Proof.
  intros Hc. unfold OSPF.read_ospf.
  rewrite bind_unfold, read_ospf_header_ok by done.
  rewrite read_next_layer_run, rest_advance, remaining_advance, advance_advance.
  unfold record_at. do 2 f_equal. unfold advance. f_equal. lia.
Qed.

Lemma read_ospf_short c :
  (remaining c < 24)%nat -> OSPF.read_ospf c = Raise TruncatedInput.
Proof.
  intros Hc. unfold OSPF.read_ospf. rewrite bind_unfold.
  destruct (fixed_width_read_ospf_header c) as [_ ->]; done.
Qed.

Lemma init_ok c :
  (24 <= remaining c)%nat ->
  OSPF.__init__ c = Ok (OSPF.mk (advance (remaining c) c) (record_at (rest c))).
Proof. intros Hc. unfold OSPF.__init__. by rewrite read_ospf_ok. Qed.

Lemma init_short c :
  (remaining c < 24)%nat -> OSPF.__init__ c = Raise TruncatedInput.
Proof. intros Hc. unfold OSPF.__init__. by rewrite read_ospf_short. Qed.

Lemma init_inv c self :
  OSPF.__init__ c = Ok self ->
  (24 <= remaining c)%nat /\ OSPF.info self = record_at (rest c).
Proof.
  intros Hd. destruct (decide (24 <= remaining c)%nat) as [Hc|Hc].
  - rewrite init_ok in Hd by done. by inversion Hd.
  - rewrite init_short in Hd by lia. discriminate.
Qed.

Lemma decode_ok buf :
  (24 <= length buf)%nat ->
  decode buf = Ok (OSPF.mk (mkCursor buf (length buf)) (record_at buf)).
Proof.
  intros Hb. unfold decode. rewrite init_ok.
  - unfold advance, remaining, rest. simpl. do 3 f_equal. lia.
  - unfold remaining. simpl. lia.
Qed.

Lemma decode_short buf :
  (length buf < 24)%nat -> decode buf = Raise TruncatedInput.
Proof.
  intros Hb. unfold decode. apply init_short. unfold remaining. simpl. lia.
Qed.

Lemma decode_inv buf self :
  decode buf = Ok self ->
  (24 <= length buf)%nat /\ OSPF.info self = record_at buf.
Proof.
  intros Hd. apply init_inv in Hd as [Hl Hi].
  unfold remaining in Hl. simpl in Hl. split; [lia | exact Hi].
Qed.

(** The layer chain leaves the header's own fields as they are. *)
Lemma record_at_get bs k :
  k <> next_layer_slot ->
  dict_get (record_at bs) k = dict_get (header_at bs) k.
Proof.
  intros Hk. unfold record_at. destruct (drop 24 bs); [done|].
  by apply dict_get_set_ne.
Qed.

Lemma keys_header_at bs : keys (header_at bs) = ospf_keys.
Proof. reflexivity. Qed.

(** ** The code tables *)

Lemma TYPE_unmapped code : TYPE !! code = None <-> ~ (1 <= code <= 5)%N.
Proof.
  unfold TYPE. rewrite !lookup_insert_None, lookup_empty.
  split; [intros H; decompose [and] H; lia | intros ?; repeat split; lia].
Qed.

Lemma AUTH_unmapped code : AUTH !! code = None <-> (2 < code)%N.
Proof.
  unfold AUTH. rewrite !lookup_insert_None, lookup_empty.
  split; [intros H; decompose [and] H; lia | intros ?; repeat split; lia].
Qed.

Lemma AUTH_mapped code name :
  AUTH !! code = Some name <->
  (code = 0%N /\ name = "Null Authentication") \/
  (code = 1%N /\ name = "Simple Password") \/
  (code = 2%N /\ name = "Cryptographic Authentication").
Proof.
  unfold AUTH. rewrite !lookup_insert_Some, lookup_empty.
  split.
  - intros [[<- <-]|[? [[<- <-]|[? [[<- <-]|[? ?]]]]]]; auto. discriminate.
  - intros [[-> ->]|[[-> ->]|[-> ->]]]; auto 10.
Qed.

(** Every name of the authentication table is a non-empty string, so
    [or] keeps it. *)
Lemma AUTH_names_truthy code name :
  AUTH !! code = Some name -> truthy (VStr name) = true.
Proof.
  rewrite AUTH_mapped. intros [[_ ->]|[[_ ->]|[_ ->]]]; reflexivity.
Qed.

Lemma autype_mapped code name :
  AUTH !! code = Some name ->
  py_or (get AUTH code) (VStr "Reserved") = VStr name.
Proof.
  intros H. unfold py_or, get. rewrite H. simpl from_option.
  by rewrite (AUTH_names_truthy code name H).
Qed.

Lemma autype_unmapped code :
  AUTH !! code = None ->
  py_or (get AUTH code) (VStr "Reserved") = VStr "Reserved".
Proof. intros H. unfold py_or, get. by rewrite H. Qed.

(** ** Decimal rendering *)

Lemma str_decimal n :
  N.of_uint <$> NilZero.uint_of_string (str n) = Some n.
Proof.
  unfold str. destruct n as [|p]; [reflexivity|].
  rewrite NilZero.usu.
  - simpl. f_equal. apply (DecimalN.Unsigned.of_to (N.pos p)).
  - apply DecimalPos.Unsigned.to_uint_nonnil.
Qed.

Lemma dotted_quad a b c d :
  dotted [a; b; c; d] =
  str (Byte.to_N a) ++ "." ++ str (Byte.to_N b) ++ "." ++
  str (Byte.to_N c) ++ "." ++ str (Byte.to_N d).
Proof. reflexivity. Qed.

(** ** The hand-over to the next layer *)

(** Whatever follows the header reads is entered with the cursor 24 bytes
    on and with the dictionary the header reads built. *)
Lemma read_ospf_header_then {B} (next : dict -> M B) c :
  (24 <= remaining c)%nat ->
  (OSPF.read_ospf_header ≫= next) c = next (header_at (rest c)) (advance 24 c).
Proof. intros Hc. by rewrite bind_unfold, read_ospf_header_ok. Qed.

(** ** Runs over the globals *)

Lemma ahead_only_ret {A} (a : A) : ahead_only (mret a).
Proof. intros c1 c2 H. by split. Qed.

Lemma ahead_only_read n : ahead_only (read n).
Proof.
  intros c1 c2 H. unfold read. rewrite !remaining_rest, H.
  destruct (decide _); [|done].
  split; [done|]. by rewrite !rest_advance, H.
Qed.

Lemma ahead_only_bind {A B} (m : M A) (k : A -> M B) :
  ahead_only m -> (forall a, ahead_only (k a)) -> ahead_only (m ≫= k).
Proof.
  intros Hm Hk c1 c2 H. rewrite !bind_unfold.
  specialize (Hm c1 c2 H).
  destruct (m c1) as [[a1 c1']|e1], (m c2) as [[a2 c2']|e2]; try done.
  destruct Hm as [-> Hrest]. by apply Hk.
Qed.

Lemma ahead_only_read_uint n : ahead_only (read_uint n).
Proof.
  apply ahead_only_bind; [apply ahead_only_read|].
  intros bs. apply ahead_only_ret.
Qed.

Lemma ahead_only_read_id_numbers : ahead_only OSPF._read_id_numbers.
Proof.
  apply ahead_only_bind; [apply ahead_only_read|].
  intros bs. apply ahead_only_ret.
Qed.

Lemma ahead_only_read_encrypt_auth : ahead_only OSPF._read_encrypt_auth.
Proof.
  repeat (apply ahead_only_bind;
          [first [apply ahead_only_read | apply ahead_only_read_uint]|];
          intros ?).
  apply ahead_only_ret.
Qed.

Lemma ahead_only_read_next_layer d : ahead_only (_read_next_layer d).
Proof.
  intros c1 c2 H. rewrite !read_next_layer_run, H. split; [done|].
  by rewrite !rest_advance, !remaining_rest, H.
Qed.

Lemma reads_only_ret {A} (a : A) : reads_only (mret a).
Proof. intros g c1 c2 H. by repeat split. Qed.

Lemma reads_only_load {A} (f : Globals -> A) : reads_only (load f).
Proof. intros g c1 c2 H. by repeat split. Qed.

Lemma reads_only_on_file {A} (m : M A) : ahead_only m -> reads_only (on_file m).
Proof.
  intros Hm g c1 c2 H. unfold on_file. specialize (Hm c1 c2 H).
  destruct (m c1) as [[a1 c1']|e1], (m c2) as [[a2 c2']|e2]; try done.
  destruct Hm as [-> Hrest]. by repeat split.
Qed.

Lemma reads_only_bind {A B} (m : MG A) (k : A -> MG B) :
  reads_only m -> (forall a, reads_only (k a)) -> reads_only (m ≫= k).
Proof.
  intros Hm Hk g c1 c2 H.
  change ((m ≫= k) g c1) with
    (match m g c1 with Returns a c' g' => k a g' c' | Raises e g' => Raises e g' end).
  change ((m ≫= k) g c2) with
    (match m g c2 with Returns a c' g' => k a g' c' | Raises e g' => Raises e g' end).
  destruct (Hm g c1 c2 H) as [Hsame Hg].
  destruct (m g c1) as [a1 c1' g1|e1 g1], (m g c2) as [a2 c2' g2|e2 g2];
    try done; simpl in Hg; subst g1.
  destruct Hsame as (-> & Hrest & <-). by apply Hk.
Qed.

Lemma reads_only_read_ospf_run : reads_only read_ospf_run.
Proof.
  unfold read_ospf_run, _read_unpack, _read_fileng.
  repeat (apply reads_only_bind;
          [first [ apply reads_only_load
                 | apply reads_only_on_file;
                   first [ apply ahead_only_read_uint
                         | apply ahead_only_read_id_numbers
                         | apply ahead_only_read ] ]|];
          intros ?).
  apply reads_only_bind.
  - destruct (_ =? _)%N.
    + apply reads_only_bind;
        [apply reads_only_on_file, ahead_only_read_encrypt_auth|].
      intros ?. apply reads_only_ret.
    + apply reads_only_bind; [apply reads_only_on_file, ahead_only_read|].
      intros ?. apply reads_only_ret.
  - intros ?. apply reads_only_on_file, ahead_only_read_next_layer.
Qed.

Lemma reads_only_init_run g c1 c2 :
  rest c1 = rest c2 ->
  globals_after (init_run c1 g) = g /\
  record_of (init_run c1 g) = record_of (init_run c2 g).
Proof.
  intros H. unfold init_run.
  destruct (reads_only_read_ospf_run g c1 c2 H) as [Hsame Hg].
  destruct (read_ospf_run g c1) as [d1 c1' g1|e1 g1],
           (read_ospf_run g c2) as [d2 c2' g2|e2 g2]; try done; simpl in *.
  - by destruct Hsame as (-> & _ & _).
  - by destruct Hsame as [-> _].
Qed.

(** Over the module's own globals a run is the analyser of the other
    sections. *)
Lemma read_ospf_run_module c :
  read_ospf_run module_globals c =
  match OSPF.read_ospf c with
  | Ok (d, c') => Returns d c' module_globals
  | Raise e => Raises e module_globals
  end.
Proof.
  unfold read_ospf_run, OSPF.read_ospf, OSPF.read_ospf_header.
  unfold mbind, MG_bind, M_bind, on_file, load, mret, MG_ret, M_ret.
  cbn [g_TYPE g_AUTH module_globals].
  repeat match goal with
         | |- context [match ?m c with _ => _ end] =>
             destruct (m c) as [[? ?]|?]; [|reflexivity]
         | |- context [match ?m ?c' with Ok _ => _ | Raise _ => _ end] =>
             destruct (m c') as [[? ?]|?]; [|reflexivity]
         | |- context [if ?b then _ else _] => destruct b
         end; reflexivity.
Qed.

Lemma init_run_module c :
  record_of (init_run c module_globals) = outcome (OSPF.__init__ c).
Proof.
  unfold init_run, OSPF.__init__. rewrite read_ospf_run_module.
  by destruct (OSPF.read_ospf c) as [[d c']|e].
Qed.

(** * The claims *)

(** C1 (as amended).  When the packet-type code is not a key of [TYPE]
    (it is outside 1..5), [TYPE.get] yields [None]: the record's [type]
    field is [None], not the raw code, and no error is raised. *)
Theorem C1_unmapped_type_is_None (buf : list byte) :
  (24 <= length buf)%nat ->
  TYPE !! type_code buf = None ->
  exists self,
    decode buf = Ok self /\
    dict_get (OSPF.info self) "type" = Some VNone /\
    OSPF.type self = Some VNone.
Proof.
  intros Hlen Hcode. eexists. split; [by apply decode_ok|].
  unfold OSPF.type, OSPF.info. cbn [OSPF._info].
  rewrite record_at_get by discriminate.
  cbn. fold (type_code buf). unfold get. by rewrite Hcode.
Qed.

Lemma C1_unmapped_type_witness :
  exists self,
    decode (sample_with Byte.x09 Byte.x00 Byte.x00 []) = Ok self /\
    dict_get (OSPF.info self) "type" = Some VNone /\
    OSPF.type self = Some VNone.
Proof.
  apply (C1_unmapped_type_is_None (sample_with Byte.x09 Byte.x00 Byte.x00 [])).
  - simpl. lia.
  - vm_compute. reflexivity.
Defined.

(** Type byte 9 is no key of [TYPE]; the decoded [type] is [None] and so
    differs from the raw code 9. *)
Lemma C1_type_is_not_raw_code :
  type_code (sample_with Byte.x09 Byte.x00 Byte.x00 []) = 9%N /\
  TYPE !! 9%N = None /\
  exists self,
    decode (sample_with Byte.x09 Byte.x00 Byte.x00 []) = Ok self /\
    dict_get (OSPF.info self) "type" = Some VNone /\
    dict_get (OSPF.info self) "type" <> Some (VInt 9).
Proof.
  split; [reflexivity|]. split; [vm_compute; reflexivity|].
  eexists. split; [vm_compute; reflexivity|].
  split; [reflexivity | discriminate].
Qed.

(** C2.  On a buffer of at least 24 bytes the shape of [auth] follows the
    raw autype code at bytes 14-15 alone: code 2 gives the nested record
    resv (2 raw bytes), key_id, len (1-byte integers), seq (4-byte
    integer), in this order; every other code gives the 8 raw bytes. *)
Theorem C2_auth_follows_raw_code (buf : list byte) :
  (24 <= length buf)%nat ->
  exists self,
    decode buf = Ok self /\
    (autype_code buf = 2%N ->
       dict_get (OSPF.info self) "auth" =
       Some (VDict [ ("resv", VBytes (slice 16 2 buf));
                     ("key_id", VInt (be_uint (slice 18 1 buf)));
                     ("len", VInt (be_uint (slice 19 1 buf)));
                     ("seq", VInt (be_uint (slice 20 4 buf))) ])) /\
    (autype_code buf <> 2%N ->
       dict_get (OSPF.info self) "auth" = Some (VBytes (slice 16 8 buf))).
Proof.
  intros Hlen. eexists. split; [by apply decode_ok|].
  unfold OSPF.info. cbn [OSPF._info].
  rewrite record_at_get by discriminate.
  change (dict_get (header_at buf) "auth") with (Some (auth_at buf)).
  unfold auth_at. fold (autype_code buf). split; intros Hc.
  - by rewrite Hc.
  - apply N.eqb_neq in Hc. by rewrite Hc.
Qed.

Lemma C2_auth_follows_raw_code_witness :
  (24 <= length (sample_with Byte.x01 Byte.x00 Byte.x02 []))%nat /\
  exists self,
    decode (sample_with Byte.x01 Byte.x00 Byte.x02 []) = Ok self /\
    dict_get (OSPF.info self) "auth" =
    Some (VDict [ ("resv", VBytes [Byte.x00; Byte.x00]);
                  ("key_id", VInt 7); ("len", VInt 16); ("seq", VInt 258) ]).
Proof.
  split; [simpl; lia|].
  destruct (C2_auth_follows_raw_code (sample_with Byte.x01 Byte.x00 Byte.x02 []))
    as (self & Hd & Hcrypt & _); [simpl; lia|].
  exists self. split; [exact Hd|]. apply Hcrypt. reflexivity.
Defined.

(** C3.  An autype code outside 0, 1, 2 makes the [autype] field the
    string "Reserved", and [auth] is still the 8 raw bytes. *)
Theorem C3_reserved_autype (buf : list byte) :
  (24 <= length buf)%nat ->
  autype_code buf <> 0%N -> autype_code buf <> 1%N -> autype_code buf <> 2%N ->
  exists self,
    decode buf = Ok self /\
    dict_get (OSPF.info self) "autype" = Some (VStr "Reserved") /\
    dict_get (OSPF.info self) "auth" = Some (VBytes (slice 16 8 buf)).
Proof.
  intros Hlen H0 H1 H2. eexists. split; [by apply decode_ok|].
  unfold OSPF.info. cbn [OSPF._info].
  rewrite !record_at_get by discriminate. split.
  - change (dict_get (header_at buf) "autype")
      with (Some (py_or (get AUTH (autype_code buf)) (VStr "Reserved"))).
    rewrite autype_unmapped; [done|]. apply AUTH_unmapped. lia.
  - change (dict_get (header_at buf) "auth") with (Some (auth_at buf)).
    unfold auth_at. fold (autype_code buf).
    apply N.eqb_neq in H2. by rewrite H2.
Qed.

Lemma C3_reserved_autype_witness :
  autype_code (sample_with Byte.x01 Byte.x00 Byte.x63 []) = 99%N /\
  exists self,
    decode (sample_with Byte.x01 Byte.x00 Byte.x63 []) = Ok self /\
    dict_get (OSPF.info self) "autype" = Some (VStr "Reserved") /\
    dict_get (OSPF.info self) "auth" =
    Some (VBytes (slice 16 8 (sample_with Byte.x01 Byte.x00 Byte.x63 []))).
Proof.
  split; [reflexivity|].
  apply (C3_reserved_autype (sample_with Byte.x01 Byte.x00 Byte.x63 []));
    [simpl; lia | discriminate | discriminate | discriminate].
Defined.

(** C4.  Whenever a buffer decodes, the analyser's [length] (and
    [__len__], [__length_hint__]) is the constant 24, whichever
    authentication variant was read, while the record's [len] field is
    whatever the sender put in bytes 2-3. *)
Theorem C4_length_is_24 (buf : list byte) (self : OSPF.t) :
  decode buf = Ok self ->
  OSPF.length self = 24%N /\
  OSPF.__len__ self = 24%N /\
  OSPF.__length_hint__ self = 24%N /\
  dict_get (OSPF.info self) "len" = Some (VInt (be_uint (slice 2 2 buf))).
Proof.
  intros Hd. apply decode_inv in Hd as [_ Hi].
  repeat split. rewrite Hi, record_at_get by discriminate. reflexivity.
Qed.

Lemma C4_length_is_24_witness :
  exists self,
    decode sample_hello = Ok self /\
    OSPF.length self = 24%N /\
    OSPF.__len__ self = 24%N /\
    OSPF.__length_hint__ self = 24%N /\
    dict_get (OSPF.info self) "len" = Some (VInt 44).
Proof.
  eexists. split; [vm_compute; reflexivity|].
  apply (C4_length_is_24 sample_hello). vm_compute. reflexivity.
Defined.

(** C5.  With at least 24 bytes ahead, the reads of [read_ospf] succeed
    and leave the cursor exactly 24 bytes further on, the buffer untouched:
    [read_ospf] is the layer chain entered at that cursor, and anything
    else put after the header reads is entered there too.  From byte 16
    on, the cryptographic sub-layout (2+1+1+4) and the opaque 8-byte read
    both end at byte 24; and when the 24 bytes are all there is, the
    analyser is left with its file 24 bytes on. *)
Theorem C5_consumes_24 (c : ByteCursor) :
  (24 <= remaining c)%nat ->
  exists d,
    OSPF.read_ospf_header c = Ok (d, advance 24 c) /\
    position (advance 24 c) = (position c + 24)%nat /\
    buffer (advance 24 c) = buffer c /\
    OSPF.read_ospf c = _read_next_layer d (advance 24 c) /\
    (forall (B : Type) (next : dict -> M B),
       (OSPF.read_ospf_header ≫= next) c = next d (advance 24 c)) /\
    (exists a, OSPF._read_encrypt_auth (advance 16 c) = Ok (a, advance 24 c)) /\
    (exists a, _read_fileng 8 (advance 16 c) = Ok (a, advance 24 c)) /\
    (remaining c = 24%nat ->
     exists self, OSPF.__init__ c = Ok self /\ OSPF._file self = advance 24 c).
Proof.
  intros Hc. exists (header_at (rest c)).
  split; [by apply read_ospf_header_ok|].
  split; [reflexivity|]. split; [reflexivity|].
  split; [by apply (read_ospf_header_then _read_next_layer)|].
  split; [intros B next; by apply read_ospf_header_then|].
  split; [|split].
  - destruct (fixed_width_read_encrypt_auth (advance 16 c)) as [Hok _].
    rewrite remaining_advance, advance_advance in Hok. apply Hok. lia.
  - destruct (fixed_width_read 8 (advance 16 c)) as [Hok _].
    rewrite remaining_advance, advance_advance in Hok. apply Hok. lia.
  - intros H24. eexists. split; [by apply init_ok|].
    simpl. by rewrite H24.
Qed.

Lemma C5_consumes_24_witness :
  exists d,
    OSPF.read_ospf_header (mkCursor (sample_with Byte.x01 Byte.x00 Byte.x02
                                       [Byte.xff; Byte.xff]) 0) =
      Ok (d, mkCursor (sample_with Byte.x01 Byte.x00 Byte.x02
                         [Byte.xff; Byte.xff]) 24) /\
    OSPF.read_ospf (mkCursor (sample_with Byte.x01 Byte.x00 Byte.x02
                                [Byte.xff; Byte.xff]) 0) =
      _read_next_layer d (mkCursor (sample_with Byte.x01 Byte.x00 Byte.x02
                                      [Byte.xff; Byte.xff]) 24).
Proof.
  destruct (C5_consumes_24 (mkCursor (sample_with Byte.x01 Byte.x00 Byte.x02
                                        [Byte.xff; Byte.xff]) 0))
    as (d & Hd & _ & _ & Hnext & _); [vm_compute; lia|].
  exists d. split; [exact Hd | exact Hnext].
Defined.

(** C6.  With fewer than 24 bytes ahead, decoding raises
    [TruncatedInput]: neither [read_ospf] nor the constructor yields any
    record. *)
Theorem C6_truncated (c : ByteCursor) :
  (remaining c < 24)%nat ->
  OSPF.read_ospf c = Raise TruncatedInput /\
  OSPF.__init__ c = Raise TruncatedInput /\
  (forall self, OSPF.__init__ c <> Ok self).
Proof.
  intros Hc. split; [by apply read_ospf_short|].
  rewrite init_short by done. split; [done | discriminate].
Qed.

Lemma C6_truncated_witness :
  length (take 10 sample_hello) = 10%nat /\
  decode (take 10 sample_hello) = Raise TruncatedInput.
Proof.
  split; [reflexivity|].
  apply (C6_truncated (mkCursor (take 10 sample_hello) 0)).
  vm_compute. lia.
Defined.

(** C7.  Whenever a buffer decodes, the dictionary [read_ospf] has built
    when it hands over to the next layer has exactly the keys version,
    type, len, router_id, area_id, chksum, autype, auth, in this order,
    no fewer and no more; and the decoded record holds each of these keys
    with the value that dictionary gives it. *)
Theorem C7_record_keys (buf : list byte) (self : OSPF.t) :
  decode buf = Ok self ->
  exists d,
    OSPF.read_ospf_header (mkCursor buf 0) =
      Ok (d, advance 24 (mkCursor buf 0)) /\
    keys d = ospf_keys /\
    OSPF.read_ospf (mkCursor buf 0) =
      _read_next_layer d (advance 24 (mkCursor buf 0)) /\
    (forall (B : Type) (next : dict -> M B),
       (OSPF.read_ospf_header ≫= next) (mkCursor buf 0) =
       next d (advance 24 (mkCursor buf 0))) /\
    (forall k : string,
       k ∈ ospf_keys -> dict_get (OSPF.info self) k = dict_get d k).
Proof.
  intros Hd. pose proof (decode_inv _ _ Hd) as [Hl Hi].
  assert (Hc : (24 <= remaining (mkCursor buf 0))%nat)
    by (unfold remaining; simpl; lia).
  exists (header_at buf).
  split; [by apply (read_ospf_header_ok (mkCursor buf 0))|].
  split; [reflexivity|].
  split; [by apply (read_ospf_header_then _read_next_layer (mkCursor buf 0))|].
  split; [intros B next;
          by apply (read_ospf_header_then next (mkCursor buf 0))|].
  intros k Hk. rewrite Hi. apply record_at_get.
  intros ->. revert Hk. unfold ospf_keys, next_layer_slot.
  rewrite !elem_of_cons, elem_of_nil. intros H.
  repeat destruct H as [H|H]; done.
Qed.

Lemma C7_record_keys_witness :
  exists d,
    OSPF.read_ospf_header (mkCursor sample_hello 0) =
      Ok (d, mkCursor sample_hello 24) /\
    keys d = ospf_keys.
Proof.
  destruct (C7_record_keys sample_hello _ eq_refl) as (d & Hd & Hk & _).
  exists d. split; [exact Hd | exact Hk].
Defined.

(** C8.  [_read_id_numbers] renders four bytes as their decimal values
    joined by periods, each value reading back as the octet; [router_id]
    is this rendering of bytes 4-7 and [area_id] that of bytes 8-11; the
    bytes 192, 0, 2, 1 give "192.0.2.1". *)
Theorem C8_dotted_quad :
  (forall a b c d : byte,
     OSPF._read_id_numbers (mkCursor [a; b; c; d] 0) =
     Ok (VStr (str (Byte.to_N a) ++ "." ++ str (Byte.to_N b) ++ "." ++
               str (Byte.to_N c) ++ "." ++ str (Byte.to_N d)),
         mkCursor [a; b; c; d] 4)) /\
  (forall n : N, N.of_uint <$> NilZero.uint_of_string (str n) = Some n) /\
  (forall buf : list byte,
     (24 <= length buf)%nat ->
     exists self,
       decode buf = Ok self /\
       dict_get (OSPF.info self) "router_id" =
         Some (VStr (dotted (slice 4 4 buf))) /\
       dict_get (OSPF.info self) "area_id" =
         Some (VStr (dotted (slice 8 4 buf)))) /\
  OSPF._read_id_numbers
    (mkCursor [Byte.xc0; Byte.x00; Byte.x02; Byte.x01] 0) =
  Ok (VStr "192.0.2.1", mkCursor [Byte.xc0; Byte.x00; Byte.x02; Byte.x01] 4).
Proof.
  split; [|split; [|split]].
  - intros a b c d. reflexivity.
  - exact str_decimal.
  - intros buf Hlen. eexists. split; [by apply decode_ok|].
    unfold OSPF.info. cbn [OSPF._info].
    rewrite !record_at_get by discriminate. split; reflexivity.
  - reflexivity.
Qed.

Lemma C8_dotted_quad_witness :
  exists self,
    decode sample_hello = Ok self /\
    dict_get (OSPF.info self) "router_id" = Some (VStr "192.0.2.1") /\
    dict_get (OSPF.info self) "area_id" = Some (VStr "0.0.0.1").
Proof.
  destruct C8_dotted_quad as (_ & _ & Hfields & _).
  apply (Hfields sample_hello). simpl. lia.
Defined.

(** C9.  Two runs of the analyser over the same bytes, one after the
    other, give the same record (or both raise): a run leaves the
    module's globals, the two code tables, as it found them, whatever they
    held, so the second run starts from what the first started from; and
    what a run returns depends on those globals and on the bytes ahead of
    its cursor only.  Over the module's own tables a run is the analyser
    itself. *)
Theorem C9_deterministic (g : Globals) (c1 c2 : ByteCursor) :
  rest c1 = rest c2 ->
  globals_after (init_run c1 g) = g /\
  globals_after (init_run c2 (globals_after (init_run c1 g))) = g /\
  record_of (init_run c2 (globals_after (init_run c1 g))) =
    record_of (init_run c1 g) /\
  record_of (init_run c1 module_globals) = outcome (OSPF.__init__ c1).
Proof.
  intros H.
  destruct (reads_only_init_run g c1 c2 H) as [Hg1 Hr].
  destruct (reads_only_init_run g c2 c1 (eq_sym H)) as [Hg2 _].
  rewrite Hg1. repeat split; try done. apply init_run_module.
Qed.

Lemma C9_deterministic_witness :
  record_of (init_run (mkCursor (Byte.xff :: sample_hello) 1)
               (globals_after
                  (init_run (mkCursor sample_hello 0) module_globals))) =
  record_of (init_run (mkCursor sample_hello 0) module_globals) /\
  globals_after (init_run (mkCursor sample_hello 0) module_globals) =
  module_globals.
Proof.
  destruct (C9_deterministic module_globals (mkCursor sample_hello 0)
              (mkCursor (Byte.xff :: sample_hello) 1) eq_refl)
    as (Hg & _ & Hr & _).
  split; [exact Hr | exact Hg].
Defined.

(** C10.  An autype code that is a key of [AUTH] (0, 1 or 2) makes the
    [autype] field the table's name for it, never "Reserved": every name
    in the table is a non-empty string, so [or] keeps it; code 0 gives
    "Null Authentication". *)
Theorem C10_mapped_autype (buf : list byte) (name : string) :
  (24 <= length buf)%nat ->
  AUTH !! autype_code buf = Some name ->
  exists self,
    decode buf = Ok self /\
    dict_get (OSPF.info self) "autype" = Some (VStr name) /\
    name <> "Reserved" /\
    truthy (VStr name) = true /\
    (autype_code buf = 0%N -> name = "Null Authentication").
Proof.
  intros Hlen Hname. eexists. split; [by apply decode_ok|].
  unfold OSPF.info. cbn [OSPF._info].
  rewrite record_at_get by discriminate.
  change (dict_get (header_at buf) "autype")
    with (Some (py_or (get AUTH (autype_code buf)) (VStr "Reserved"))).
  rewrite (autype_mapped _ _ Hname).
  split; [done|]. split; [|split].
  - apply AUTH_mapped in Hname as [[_ ->]|[[_ ->]|[_ ->]]]; discriminate.
  - by apply (AUTH_names_truthy (autype_code buf)).
  - intros H0. rewrite H0 in Hname.
    apply AUTH_mapped in Hname as [[_ ->]|[[? _]|[? _]]]; done.
Qed.

Lemma C10_mapped_autype_witness :
  autype_code sample_hello = 0%N /\
  exists self,
    decode sample_hello = Ok self /\
    dict_get (OSPF.info self) "autype" = Some (VStr "Null Authentication").
Proof.
  split; [reflexivity|].
  destruct (C10_mapped_autype sample_hello "Null Authentication")
    as (self & Hd & Ha & _); [simpl; lia | vm_compute; reflexivity |].
  by exists self.
Defined.

(** * Further properties of the dissector *)

(** ** Widths *)

Lemma be_uint_acc_bound (bs : list byte) (acc : N) :
  (foldl (fun a b => a * 256 + Byte.to_N b) acc bs + 1
   <= (acc + 1) * 256 ^ N.of_nat (length bs))%N.
Proof.
  revert acc. induction bs as [|b bs IH]; intros acc.
  - simpl. lia.
  - cbn [foldl length]. etransitivity; [apply IH|].
    rewrite Nat2N.inj_succ, N.pow_succ_r'.
    pose proof (Byte.to_N_bounded b).
    assert (256 ^ N.of_nat (length bs) <> 0)%N by (apply N.pow_nonzero; lia).
    nia.
Qed.

Lemma be_uint_bound (bs : list byte) :
  (be_uint bs < 256 ^ N.of_nat (length bs))%N.
Proof.
  pose proof (be_uint_acc_bound bs 0). unfold be_uint. lia.
Qed.

Lemma slice_length off n (bs : list byte) :
  (off + n <= length bs)%nat -> length (slice off n bs) = n.
Proof.
  intros H. unfold slice. rewrite length_take, length_drop. lia.
Qed.

Lemma slice_take off n m (bs : list byte) :
  (off + n <= m)%nat -> slice off n (take m bs) = slice off n bs.
Proof.
  intros H. unfold slice.
  rewrite skipn_firstn_comm, take_take. f_equal. lia.
Qed.

Lemma header_at_take (bs : list byte) : header_at (take 24 bs) = header_at bs.
Proof.
  unfold header_at, auth_at. by rewrite !slice_take by lia.
Qed.

Lemma decode_field buf self k :
  decode buf = Ok self -> k <> next_layer_slot ->
  dict_get (OSPF.info self) k = dict_get (header_at buf) k.
Proof.
  intros Hd Hk. apply decode_inv in Hd as [_ ->]. by apply record_at_get.
Qed.

(** ** The packet type *)

(** The [type] property and the [type] field agree; a code of the table
    (1..5) gives the table's name, and the field is never an integer. *)
Theorem type_is_name_or_None (buf : list byte) (self : OSPF.t) :
  decode buf = Ok self ->
  OSPF.type self = dict_get (OSPF.info self) "type" /\
  ((1 <= type_code buf <= 5)%N ->
     exists name, TYPE !! type_code buf = Some name /\
                  OSPF.type self = Some (VStr name)) /\
  (forall n, OSPF.type self <> Some (VInt n)).
Proof.
  intros Hd. split; [reflexivity|].
  unfold OSPF.type. fold (OSPF.info self).
  rewrite (decode_field buf self "type" Hd) by discriminate.
  change (dict_get (header_at buf) "type")
    with (Some (get TYPE (type_code buf))).
  unfold get. split.
  - intros Hc. destruct (TYPE !! type_code buf) as [name|] eqn:E.
    + by exists name.
    + apply TYPE_unmapped in E. contradiction.
  - intros n. by destruct (TYPE !! type_code buf).
Qed.

Lemma type_is_name_or_None_witness :
  exists self,
    decode sample_hello = Ok self /\
    OSPF.type self = Some (VStr "Hello").
Proof.
  eexists. split; [vm_compute; reflexivity|].
  destruct (type_is_name_or_None sample_hello _ eq_refl) as (_ & Hname & _).
  destruct Hname as (name & Hn & Ht); [vm_compute; split; discriminate|].
  vm_compute in Hn. injection Hn as <-. exact Ht.
Defined.

(** Both tables give different names to different codes. *)
Lemma TYPE_injective a b name :
  TYPE !! a = Some name -> TYPE !! b = Some name -> a = b.
Proof.
  unfold TYPE. rewrite !lookup_insert_Some, !lookup_empty.
  intros Ha Hb.
  repeat match goal with
         | H : _ \/ _ |- _ => destruct H
         | H : _ /\ _ |- _ => destruct H
         end; subst; try discriminate; try congruence.
Qed.

Lemma AUTH_injective a b name :
  AUTH !! a = Some name -> AUTH !! b = Some name -> a = b.
Proof.
  rewrite !AUTH_mapped.
  intros [[-> ->]|[[-> ->]|[-> ->]]] [[-> ?]|[[-> ?]|[-> ?]]];
    done || discriminate.
Qed.

(** Two decoded headers with the same [type] name carry the same type
    code, and likewise for an [autype] name other than "Reserved". *)
Theorem names_determine_codes (buf1 buf2 : list byte) (self1 self2 : OSPF.t) :
  decode buf1 = Ok self1 -> decode buf2 = Ok self2 ->
  (dict_get (OSPF.info self1) "type" = dict_get (OSPF.info self2) "type" ->
   dict_get (OSPF.info self1) "type" <> Some VNone ->
   type_code buf1 = type_code buf2) /\
  (dict_get (OSPF.info self1) "autype" = dict_get (OSPF.info self2) "autype" ->
   dict_get (OSPF.info self1) "autype" <> Some (VStr "Reserved") ->
   autype_code buf1 = autype_code buf2).
Proof.
  intros Hd1 Hd2.
  rewrite !(decode_field buf1 self1 _ Hd1), !(decode_field buf2 self2 _ Hd2)
    by discriminate.
  change (dict_get (header_at buf1) "type")
    with (Some (get TYPE (type_code buf1))).
  change (dict_get (header_at buf2) "type")
    with (Some (get TYPE (type_code buf2))).
  change (dict_get (header_at buf1) "autype")
    with (Some (py_or (get AUTH (autype_code buf1)) (VStr "Reserved"))).
  change (dict_get (header_at buf2) "autype")
    with (Some (py_or (get AUTH (autype_code buf2)) (VStr "Reserved"))).
  split.
  - unfold get.
    destruct (TYPE !! type_code buf1) as [n1|] eqn:E1; [|done].
    destruct (TYPE !! type_code buf2) as [n2|] eqn:E2; [|done].
    simpl. intros [= ->] _. by apply (TYPE_injective _ _ n2).
  - destruct (AUTH !! autype_code buf1) as [n1|] eqn:E1.
    + rewrite (autype_mapped _ _ E1).
      destruct (AUTH !! autype_code buf2) as [n2|] eqn:E2.
      * rewrite (autype_mapped _ _ E2). intros [= ->] _.
        by apply (AUTH_injective _ _ n2).
      * rewrite (autype_unmapped _ E2). intros [= ->] Hne. done.
    + rewrite (autype_unmapped _ E1). intros _ Hne. done.
Qed.

Lemma names_determine_codes_witness :
  type_code sample_hello =
  type_code (sample_with Byte.x01 Byte.x00 Byte.x02 [Byte.xff]).
Proof.
  refine (proj1 (names_determine_codes sample_hello
                   (sample_with Byte.x01 Byte.x00 Byte.x02 [Byte.xff])
                   _ _ eq_refl eq_refl) _ _).
  - vm_compute. reflexivity.
  - vm_compute. discriminate.
Defined.

(** ** Ranges and widths of the decoded fields *)

(** [version] fits one byte and [len] two: whatever the sender wrote, the
    decoded integers are below 256 and 65536. *)
Theorem header_integers_bounded (buf : list byte) (self : OSPF.t) :
  decode buf = Ok self ->
  exists v l,
    dict_get (OSPF.info self) "version" = Some (VInt v) /\ (v < 256)%N /\
    dict_get (OSPF.info self) "len" = Some (VInt l) /\ (l < 65536)%N.
Proof.
  intros Hd. pose proof (decode_inv _ _ Hd) as [Hl _].
  rewrite !(decode_field buf self _ Hd) by discriminate.
  exists (be_uint (slice 0 1 buf)), (be_uint (slice 2 2 buf)).
  split; [reflexivity|]. split; [|split; [reflexivity|]].
  - pose proof (be_uint_bound (slice 0 1 buf)) as Hb.
    rewrite slice_length in Hb by lia. exact Hb.
  - pose proof (be_uint_bound (slice 2 2 buf)) as Hb.
    rewrite slice_length in Hb by lia. exact Hb.
Qed.

Lemma header_integers_bounded_witness :
  exists self v l,
    decode sample_hello = Ok self /\
    dict_get (OSPF.info self) "version" = Some (VInt v) /\ (v < 256)%N /\
    dict_get (OSPF.info self) "len" = Some (VInt l) /\ (l < 65536)%N.
Proof.
  eexists.
  destruct (header_integers_bounded sample_hello _ eq_refl)
    as (v & l & H).
  exists v, l. split; [reflexivity | exact H].
Defined.

(** Under cryptographic authentication (autype code 2) the nested record
    holds a 2-byte [resv], [key_id] and [len] below 256 and [seq] below
    2^32. *)
Theorem crypt_auth_bounded (buf : list byte) (self : OSPF.t) :
  decode buf = Ok self ->
  autype_code buf = 2%N ->
  exists resv k l s,
    dict_get (OSPF.info self) "auth" =
      Some (VDict [ ("resv", VBytes resv); ("key_id", VInt k);
                    ("len", VInt l); ("seq", VInt s) ]) /\
    length resv = 2%nat /\
    (k < 256)%N /\ (l < 256)%N /\ (s < 4294967296)%N.
Proof.
  intros Hd Hc. pose proof (decode_inv _ _ Hd) as [Hl _].
  rewrite (decode_field buf self _ Hd) by discriminate.
  change (dict_get (header_at buf) "auth") with (Some (auth_at buf)).
  unfold auth_at. fold (autype_code buf). rewrite Hc. simpl.
  do 4 eexists. split; [reflexivity|].
  split; [by rewrite slice_length by lia|].
  split; [|split].
  - pose proof (be_uint_bound (slice 18 1 buf)) as Hb.
    rewrite slice_length in Hb by lia. exact Hb.
  - pose proof (be_uint_bound (slice 19 1 buf)) as Hb.
    rewrite slice_length in Hb by lia. exact Hb.
  - pose proof (be_uint_bound (slice 20 4 buf)) as Hb.
    rewrite slice_length in Hb by lia. exact Hb.
Qed.

Lemma crypt_auth_bounded_witness :
  exists self resv k l s,
    decode (sample_with Byte.x01 Byte.x00 Byte.x02 []) = Ok self /\
    dict_get (OSPF.info self) "auth" =
      Some (VDict [ ("resv", VBytes resv); ("key_id", VInt k);
                    ("len", VInt l); ("seq", VInt s) ]) /\
    length resv = 2%nat /\
    (k < 256)%N /\ (l < 256)%N /\ (s < 4294967296)%N.
Proof.
  eexists.
  destruct (crypt_auth_bounded (sample_with Byte.x01 Byte.x00 Byte.x02 [])
              _ eq_refl eq_refl) as (resv & k & l & s & H).
  exists resv, k, l, s. split; [reflexivity | exact H].
Defined.

(** The opaque fields keep their width: [chksum] is always 2 bytes, and
    outside cryptographic authentication [auth] is always 8 bytes. *)
Theorem raw_fields_width (buf : list byte) (self : OSPF.t) :
  decode buf = Ok self ->
  (exists cs, dict_get (OSPF.info self) "chksum" = Some (VBytes cs) /\
              length cs = 2%nat) /\
  (autype_code buf <> 2%N ->
   exists au, dict_get (OSPF.info self) "auth" = Some (VBytes au) /\
              length au = 8%nat).
Proof.
  intros Hd. pose proof (decode_inv _ _ Hd) as [Hl _].
  rewrite !(decode_field buf self _ Hd) by discriminate. split.
  - exists (slice 12 2 buf). split; [reflexivity|].
    by rewrite slice_length by lia.
  - intros Hc. exists (slice 16 8 buf).
    change (dict_get (header_at buf) "auth") with (Some (auth_at buf)).
    unfold auth_at. fold (autype_code buf).
    apply N.eqb_neq in Hc. rewrite Hc.
    split; [reflexivity|]. by rewrite slice_length by lia.
Qed.

Lemma raw_fields_width_witness :
  exists self au,
    decode sample_hello = Ok self /\
    dict_get (OSPF.info self) "auth" = Some (VBytes au) /\
    length au = 8%nat.
Proof.
  eexists.
  destruct (raw_fields_width sample_hello _ eq_refl) as [_ Hau].
  destruct Hau as (au & H); [vm_compute; discriminate|].
  exists au. split; [reflexivity | exact H].
Defined.

(** ** The authentication name and the shape of [auth] *)

(** [autype] is always a non-empty string, and it is "Cryptographic
    Authentication" exactly when [auth] is a nested record. *)
Theorem autype_name_matches_auth_shape (buf : list byte) (self : OSPF.t) :
  decode buf = Ok self ->
  (exists s, dict_get (OSPF.info self) "autype" = Some (VStr s) /\ s <> "") /\
  (dict_get (OSPF.info self) "autype" =
     Some (VStr "Cryptographic Authentication") <->
   exists d, dict_get (OSPF.info self) "auth" = Some (VDict d)).
Proof.
  intros Hd.
  rewrite !(decode_field buf self _ Hd) by discriminate.
  change (dict_get (header_at buf) "autype")
    with (Some (py_or (get AUTH (autype_code buf)) (VStr "Reserved"))).
  change (dict_get (header_at buf) "auth") with (Some (auth_at buf)).
  unfold auth_at. fold (autype_code buf).
  destruct (AUTH !! autype_code buf) as [name|] eqn:E.
  - rewrite (autype_mapped _ _ E).
    apply AUTH_mapped in E as [[-> ->]|[[-> ->]|[-> ->]]]; simpl;
      (split; [eexists; split; [reflexivity | discriminate]|]);
      (split; [ solve [intros [=] | intros _; eexists; reflexivity]
              | solve [intros [d [=]] | intros _; reflexivity] ]).
  - rewrite (autype_unmapped _ E). apply AUTH_unmapped in E.
    assert ((autype_code buf =? 2)%N = false) as -> by (apply N.eqb_neq; lia).
    split; [eexists; split; [reflexivity | discriminate]|].
    split; [intros [=] | intros [d [=]]].
Qed.

Lemma autype_name_matches_auth_shape_witness :
  exists self d,
    decode (sample_with Byte.x01 Byte.x00 Byte.x02 []) = Ok self /\
    dict_get (OSPF.info self) "auth" = Some (VDict d).
Proof.
  eexists.
  destruct (autype_name_matches_auth_shape
              (sample_with Byte.x01 Byte.x00 Byte.x02 []) _ eq_refl)
    as [_ [Hto _]].
  destruct Hto as [d Hd]; [vm_compute; reflexivity|].
  exists d. split; [reflexivity | exact Hd].
Defined.

(** ** What the header fields depend on *)

Lemma ospf_keys_not_slot k : k ∈ ospf_keys -> k <> next_layer_slot.
Proof.
  unfold ospf_keys. rewrite !elem_of_cons, elem_of_nil.
  intros H; repeat destruct H as [->|H]; done.
Qed.

(** The eight header fields are read from the first 24 bytes only: what
    follows them, and what the sender wrote in [len], never changes a
    header field. *)
Theorem header_ignores_trailing_bytes
    (buf1 buf2 : list byte) (self1 self2 : OSPF.t) (k : string) :
  decode buf1 = Ok self1 -> decode buf2 = Ok self2 ->
  take 24 buf1 = take 24 buf2 ->
  k ∈ ospf_keys ->
  dict_get (OSPF.info self1) k = dict_get (OSPF.info self2) k.
Proof.
  intros Hd1 Hd2 Htake Hk. apply ospf_keys_not_slot in Hk.
  rewrite (decode_field buf1 self1 k Hd1), (decode_field buf2 self2 k Hd2)
    by done.
  by rewrite <- (header_at_take buf1), <- (header_at_take buf2), Htake.
Qed.

Lemma header_ignores_trailing_bytes_witness :
  exists self1 self2,
    decode sample_hello = Ok self1 /\
    decode (sample_hello ++ [Byte.x01; Byte.x02])%list = Ok self2 /\
    dict_get (OSPF.info self1) "auth" = dict_get (OSPF.info self2) "auth".
Proof.
  do 2 eexists. split; [reflexivity|]. split; [reflexivity|].
  apply (header_ignores_trailing_bytes sample_hello
           (sample_hello ++ [Byte.x01; Byte.x02])%list _ _ "auth"
           eq_refl eq_refl eq_refl).
  unfold ospf_keys. rewrite !elem_of_cons. auto 10.
Defined.

(** ** Dotted identifiers *)

Lemma count_dots_app s1 s2 :
  count_dots (s1 ++ s2) = (count_dots s1 + count_dots s2)%nat.
Proof.
  induction s1 as [|c s1 IH]; simpl; [done|]. rewrite IH. lia.
Qed.

Lemma length_string_app s1 s2 :
  String.length (s1 ++ s2) = (String.length s1 + String.length s2)%nat.
Proof. induction s1 as [|c s1 IH]; simpl; [done|]. by rewrite IH. Qed.

Lemma count_dots_digits (d : Decimal.uint) :
  count_dots (NilEmpty.string_of_uint d) = 0%nat.
Proof. induction d; simpl; done. Qed.

Lemma count_dots_str n : count_dots (str n) = 0%nat.
Proof.
  unfold str, NilZero.string_of_uint.
  destruct (N.to_uint n); try apply count_dots_digits. reflexivity.
Qed.

Lemma str_inj a b : str a = str b -> a = b.
Proof.
  intros H. pose proof (str_decimal a) as Ha.
  rewrite H, str_decimal in Ha. by injection Ha.
Qed.

Lemma append_nil (s : string) : "" ++ s = s.
Proof. reflexivity. Qed.

Lemma append_cons c (s r : string) : String c s ++ r = String c (s ++ r).
Proof. reflexivity. Qed.

(** A string is cut at its first period in one way only. *)
Lemma dot_split s1 s2 r1 r2 :
  count_dots s1 = 0%nat -> count_dots s2 = 0%nat ->
  s1 ++ "." ++ r1 = s2 ++ "." ++ r2 -> s1 = s2 /\ r1 = r2.
Proof.
  rewrite !(append_cons "." ""), !append_nil.
  revert s2. induction s1 as [|c s1 IH]; intros [|c2 s2];
    rewrite ?append_cons, ?append_nil; cbn [count_dots].
  - intros _ _ [= ->]. done.
  - intros _ H2 [= <- _]. discriminate.
  - intros H1 _ [= -> _]. discriminate.
  - intros H1 H2 [= -> Heq].
    destruct (IH s2) as [-> ->]; try done.
    + destruct (Ascii.eqb c2 "."); [discriminate | exact H1].
    + destruct (Ascii.eqb c2 "."); [discriminate | exact H2].
Qed.

Lemma to_N_inj (a b : byte) : Byte.to_N a = Byte.to_N b -> a = b.
Proof.
  intros H. pose proof (Byte.of_to_N a) as Ha.
  rewrite H, Byte.of_to_N in Ha. by injection Ha.
Qed.

Lemma dotted_inj (l1 l2 : list byte) :
  length l1 = 4%nat -> length l2 = 4%nat -> dotted l1 = dotted l2 -> l1 = l2.
Proof.
  intros H1 H2.
  destruct l1 as [|a [|b [|c [|d [|? ?]]]]]; try discriminate.
  destruct l2 as [|a' [|b' [|c' [|d' [|? ?]]]]]; try discriminate.
  rewrite !dotted_quad. intros H.
  apply dot_split in H as [Ha H]; try apply count_dots_str.
  apply dot_split in H as [Hb H]; try apply count_dots_str.
  apply dot_split in H as [Hc Hd]; try apply count_dots_str.
  apply str_inj, to_N_inj in Ha, Hb, Hc, Hd. by subst.
Qed.

Lemma length_str_byte (b : byte) :
  (1 <= String.length (str (Byte.to_N b)) <= 3)%nat.
Proof. destruct b; vm_compute; lia. Qed.

(** Different identifiers never render alike: two decoded headers with
    the same [router_id] string have the same bytes 4-7, and with the same
    [area_id] string the same bytes 8-11. *)
Theorem id_strings_injective (buf1 buf2 : list byte) (self1 self2 : OSPF.t) :
  decode buf1 = Ok self1 -> decode buf2 = Ok self2 ->
  (dict_get (OSPF.info self1) "router_id" =
   dict_get (OSPF.info self2) "router_id" ->
   slice 4 4 buf1 = slice 4 4 buf2) /\
  (dict_get (OSPF.info self1) "area_id" =
   dict_get (OSPF.info self2) "area_id" ->
   slice 8 4 buf1 = slice 8 4 buf2).
Proof.
  intros Hd1 Hd2.
  pose proof (decode_inv _ _ Hd1) as [Hl1 _].
  pose proof (decode_inv _ _ Hd2) as [Hl2 _].
  rewrite !(decode_field buf1 self1 _ Hd1), !(decode_field buf2 self2 _ Hd2)
    by discriminate.
  split; intros [= H]; apply dotted_inj in H; try done;
    by rewrite slice_length by lia.
Qed.

Lemma id_strings_injective_witness :
  slice 4 4 sample_hello =
  slice 4 4 (sample_with Byte.x03 Byte.x00 Byte.x01 [Byte.x00]).
Proof.
  refine (proj1 (id_strings_injective sample_hello
                   (sample_with Byte.x03 Byte.x00 Byte.x01 [Byte.x00])
                   _ _ eq_refl eq_refl) _).
  vm_compute. reflexivity.
Defined.

(** The identifier strings have exactly three periods and between 7 and
    15 characters. *)
Theorem id_strings_shape (buf : list byte) (self : OSPF.t) :
  decode buf = Ok self ->
  exists r a,
    dict_get (OSPF.info self) "router_id" = Some (VStr r) /\
    dict_get (OSPF.info self) "area_id" = Some (VStr a) /\
    count_dots r = 3%nat /\ count_dots a = 3%nat /\
    (7 <= String.length r <= 15)%nat /\ (7 <= String.length a <= 15)%nat.
Proof.
  intros Hd. pose proof (decode_inv _ _ Hd) as [Hl _].
  rewrite !(decode_field buf self _ Hd) by discriminate.
  exists (dotted (slice 4 4 buf)), (dotted (slice 8 4 buf)).
  split; [reflexivity|]. split; [reflexivity|].
  assert (Hshape : forall l : list byte, length l = 4%nat ->
            count_dots (dotted l) = 3%nat /\
            (7 <= String.length (dotted l) <= 15)%nat).
  { intros l Hlen.
    destruct l as [|a [|b [|c [|d [|? ?]]]]]; try discriminate.
    rewrite dotted_quad.
    rewrite !count_dots_app, !length_string_app, !count_dots_str.
    pose proof (length_str_byte a). pose proof (length_str_byte b).
    pose proof (length_str_byte c). pose proof (length_str_byte d).
    simpl. lia. }
  destruct (Hshape (slice 4 4 buf)) as [? ?]; [by rewrite slice_length by lia|].
  destruct (Hshape (slice 8 4 buf)) as [? ?]; [by rewrite slice_length by lia|].
  done.
Qed.

Lemma id_strings_shape_witness :
  exists self r a,
    decode sample_hello = Ok self /\
    dict_get (OSPF.info self) "router_id" = Some (VStr r) /\
    dict_get (OSPF.info self) "area_id" = Some (VStr a) /\
    count_dots r = 3%nat /\ count_dots a = 3%nat /\
    (7 <= String.length r <= 15)%nat /\ (7 <= String.length a <= 15)%nat.
Proof.
  eexists.
  destruct (id_strings_shape sample_hello _ eq_refl) as (r & a & H).
  exists r, a. split; [reflexivity | exact H].
Defined.

(** * The registry name helper *)

(** ** Strings *)

Lemma string_app_inv_head (a b c : string) : a ++ b = a ++ c -> b = c.
Proof.
  induction a as [|x a IH]; rewrite ?append_cons, ?append_nil; [done|].
  intros [= H]. by apply IH.
Qed.

Lemma string_app_inv_tail (a b c : string) : a ++ c = b ++ c -> a = b.
Proof.
  revert b. induction a as [|x a IH]; intros [|y b];
    rewrite ?append_cons, ?append_nil; try done.
  - intros H. apply (f_equal String.length) in H.
    simpl in H. rewrite length_string_app in H. lia.
  - intros H. apply (f_equal String.length) in H.
    simpl in H. rewrite length_string_app in H. lia.
  - intros [= -> H]. f_equal. by apply IH.
Qed.

Lemma string_app_nil_r (s : string) : s ++ "" = s.
Proof.
  induction s as [|x s IH]; rewrite ?append_cons; [done | by rewrite IH].
Qed.

Lemma string_app_nil_inv (a b : string) : a ++ b = a -> b = "".
Proof.
  intros H. apply (string_app_inv_head a).
  rewrite H. clear H. induction a as [|x a IH]; [done|].
  rewrite append_cons. by rewrite <- IH.
Qed.

Lemma prefix_nil (s : string) : String.prefix "" s = true.
Proof. by destruct s. Qed.

Lemma prefix_app (w s t : string) :
  String.prefix w s = true -> String.prefix w (s ++ t) = true.
Proof.
  revert s. induction w as [|x w IH]; intros s.
  - intros _. apply prefix_nil.
  - destruct s as [|y s]; [simpl; discriminate|].
    rewrite append_cons. simpl. destruct (ascii_dec x y); [apply IH | done].
Qed.

Lemma prefix_self_app (s t : string) : String.prefix s (s ++ t) = true.
Proof.
  induction s as [|x s IH]; [apply prefix_nil|].
  rewrite append_cons. simpl. destruct (ascii_dec x x); [exact IH | done].
Qed.

Lemma map_chars_app f (a b : string) :
  HttpParaName.map_chars f (a ++ b) =
  HttpParaName.map_chars f a ++ HttpParaName.map_chars f b.
Proof.
  induction a as [|x a IH]; rewrite ?append_cons, ?append_nil; [done|].
  simpl. by rewrite IH.
Qed.

Lemma map_chars_compose f g h (s : string) :
  (forall c, f (g c) = h c) ->
  HttpParaName.map_chars f (HttpParaName.map_chars g s) =
  HttpParaName.map_chars h s.
Proof. intros H. induction s as [|x s IH]; simpl; [done|]. by rewrite H, IH. Qed.

Lemma lower_char_idem c :
  HttpParaName.lower_char (HttpParaName.lower_char c) = HttpParaName.lower_char c.
Proof. destruct c as [[] [] [] [] [] [] [] []]; reflexivity. Qed.

Lemma lower_upper_char c :
  HttpParaName.lower_char (HttpParaName.upper_char c) = HttpParaName.lower_char c.
Proof. destruct c as [[] [] [] [] [] [] [] []]; reflexivity. Qed.

Lemma lower_lower s : HttpParaName.lower (HttpParaName.lower s) = HttpParaName.lower s.
Proof. apply map_chars_compose, lower_char_idem. Qed.

Lemma lower_upper s : HttpParaName.lower (HttpParaName.upper s) = HttpParaName.lower s.
Proof. apply map_chars_compose, lower_upper_char. Qed.

(** ** Matching *)

Lemma re_match_lower ws s :
  HttpParaName.re_match_ignorecase ws (HttpParaName.lower s) =
  HttpParaName.re_match_ignorecase ws s.
Proof. unfold HttpParaName.re_match_ignorecase. by rewrite lower_lower. Qed.

Lemma re_match_upper ws s :
  HttpParaName.re_match_ignorecase ws (HttpParaName.upper s) =
  HttpParaName.re_match_ignorecase ws s.
Proof. unfold HttpParaName.re_match_ignorecase. by rewrite lower_upper. Qed.

Lemma re_match_app ws s t :
  HttpParaName.re_match_ignorecase ws s = true ->
  HttpParaName.re_match_ignorecase ws (s ++ t) = true.
Proof.
  unfold HttpParaName.re_match_ignorecase. rewrite !existsb_exists.
  intros (w & Hw & Hp). exists w. split; [done|].
  unfold HttpParaName.lower. rewrite map_chars_app. by apply prefix_app.
Qed.

Lemma rename_unchanged_iff name code :
  HttpParaName.rename name code = name <->
  HttpParaName.re_match_ignorecase
    ["Reserved"; "Unassigned"; "Deprecated"; "Experimental"] name = false.
Proof.
  unfold HttpParaName.rename.
  destruct (HttpParaName.re_match_ignorecase _ name); split; try done.
  intros H. apply string_app_nil_inv in H. discriminate.
Qed.

(** ** The bracketed code *)

Lemma length_zeros n : String.length (HttpParaName.zeros n) = n.
Proof. induction n as [|n IH]; simpl; [done | by rewrite IH]. Qed.

Lemma length_zfill w s :
  String.length (HttpParaName.zfill w s) = Nat.max w (String.length s).
Proof.
  unfold HttpParaName.zfill.
  destruct (w <=? String.length s)%nat eqn:E.
  - apply Nat.leb_le in E. lia.
  - apply Nat.leb_gt in E. destruct s as [|c s].
    + rewrite length_zeros. simpl. lia.
    + destruct (Ascii.eqb c "+" || Ascii.eqb c "-").
      * cbn [String.length]. rewrite length_string_app, length_zeros.
        simpl in *. lia.
      * rewrite length_string_app, length_zeros. simpl in *. lia.
Qed.

(** Upper-cased hexadecimal digits read back as the digits, and do not
    start with a sign. *)
Lemma lower_upper_digits (d : Hexadecimal.uint) :
  HttpParaName.lower
    (HttpParaName.upper (HexadecimalString.NilEmpty.string_of_uint d)) =
  HexadecimalString.NilEmpty.string_of_uint d.
Proof.
  unfold HttpParaName.lower, HttpParaName.upper.
  induction d;
    cbn [HttpParaName.map_chars HexadecimalString.NilEmpty.string_of_uint];
    [done|..]; f_equal; solve [exact IHd | reflexivity].
Qed.

Lemma hex_digits_as_uint (n : N) :
  exists d,
    HttpParaName.hex_digits n = HexadecimalString.NilEmpty.string_of_uint d /\
    N.of_hex_uint d = n.
Proof.
  unfold HttpParaName.hex_digits, HexadecimalString.NilZero.string_of_uint.
  pose proof (HexadecimalN.Unsigned.of_to n) as Hn.
  destruct (N.to_hex_uint n) eqn:E;
    try (eexists; split; [reflexivity | exact Hn]).
  exists (Hexadecimal.D0 Hexadecimal.Nil). split; [reflexivity|].
  rewrite <- Hn. reflexivity.
Qed.

Lemma zfill_digits w (d : Hexadecimal.uint) :
  let u := HttpParaName.upper (HexadecimalString.NilEmpty.string_of_uint d) in
  HttpParaName.zfill w u = HttpParaName.zeros (w - String.length u) ++ u.
Proof.
  intros u. unfold HttpParaName.zfill.
  destruct (w <=? String.length u)%nat eqn:E.
  - apply Nat.leb_le in E. by replace (w - String.length u)%nat with 0%nat by lia.
  - subst u. destruct d; [|reflexivity..].
    symmetry. apply string_app_nil_r.
Qed.

Lemma parse_zeros k (s : string) :
  N.of_hex_uint <$>
    HexadecimalString.NilEmpty.uint_of_string (HttpParaName.zeros k ++ s) =
  N.of_hex_uint <$> HexadecimalString.NilEmpty.uint_of_string s.
Proof.
  induction k as [|k IH]; [done|].
  cbn [HttpParaName.zeros]. rewrite append_cons.
  cbn [HexadecimalString.NilEmpty.uint_of_string]. rewrite <- IH.
  destruct (HexadecimalString.NilEmpty.uint_of_string _); reflexivity.
Qed.

Lemma lower_zeros k : HttpParaName.lower (HttpParaName.zeros k) = HttpParaName.zeros k.
Proof.
  unfold HttpParaName.lower.
  induction k as [|k IH]; cbn [HttpParaName.zeros HttpParaName.map_chars];
    [done|]. f_equal; solve [exact IH | reflexivity].
Qed.

Lemma code_tag_nonneg (code : Z) :
  (0 <= code)%Z ->
  exists d,
    N.of_hex_uint d = Z.to_N code /\
    HttpParaName.code_tag code =
      HttpParaName.zeros
        (4 - String.length
               (HttpParaName.upper (HexadecimalString.NilEmpty.string_of_uint d)))
      ++ HttpParaName.upper (HexadecimalString.NilEmpty.string_of_uint d).
Proof.
  intros Hc. unfold HttpParaName.code_tag, HttpParaName.hex.
  assert ((code <? 0)%Z = false) as -> by lia.
  destruct (hex_digits_as_uint (Z.abs_N code)) as (d & Hd & Hv).
  exists d. split; [lia|].
  rewrite Hd.
  change (HttpParaName.drop_chars 2 ("0x" ++ ?h)) with h.
  apply zfill_digits.
Qed.

(** Reading the bracketed code of a non-negative code back as a
    hexadecimal numeral gives the code. *)
Lemma code_tag_parse (code : Z) :
  (0 <= code)%Z ->
  N.of_hex_uint <$>
    HexadecimalString.NilEmpty.uint_of_string
      (HttpParaName.lower (HttpParaName.code_tag code)) = Some (Z.to_N code).
Proof.
  intros Hc. destruct (code_tag_nonneg code Hc) as (d & Hv & ->).
  unfold HttpParaName.lower at 1. rewrite map_chars_app.
  fold (HttpParaName.lower (HttpParaName.zeros
    (4 - String.length (HttpParaName.upper
           (HexadecimalString.NilEmpty.string_of_uint d))))).
  fold (HttpParaName.lower (HttpParaName.upper
           (HexadecimalString.NilEmpty.string_of_uint d))).
  rewrite lower_zeros, lower_upper_digits, parse_zeros.
  rewrite HexadecimalString.NilEmpty.usu. simpl. by rewrite Hv.
Qed.

Lemma all_from_spec fuel c f x :
  all_from fuel c f = true ->
  (c <= x < c + Z.of_nat fuel)%Z -> f x = true.
Proof.
  revert c. induction fuel as [|k IH]; intros c; [lia|].
  cbn [all_from]. intros [Hc Hk]%andb_prop Hx.
  destruct (decide (x = c)) as [->|Hne]; [done|].
  apply (IH (c + 1)%Z); [done | lia].
Qed.

Lemma code_tag_small_check :
  all_from (Z.to_nat 65536) 0
    (fun c => (String.length (HttpParaName.code_tag c) =? 4)%nat) = true.
Proof. vm_compute. reflexivity. Qed.

(** ** Properties of [rename] *)

(** For a name of code points below 256, [rename] only ever appends: the
    name stays a prefix of the result; it comes back unchanged exactly
    when it does not begin, ASCII letter case apart, with Reserved,
    Unassigned, Deprecated or Experimental; and a name that does is
    extended by at least nine characters. *)
Theorem rename_extends_name (name : string) (code : Z) :
  String.prefix name (HttpParaName.rename name code) = true /\
  (HttpParaName.rename name code = name <->
   HttpParaName.re_match_ignorecase
     ["Reserved"; "Unassigned"; "Deprecated"; "Experimental"] name = false) /\
  (HttpParaName.rename name code <> name ->
   (String.length name + 9 <=
    String.length (HttpParaName.rename name code))%nat).
Proof.
  split; [|split].
  - unfold HttpParaName.rename.
    destruct (HttpParaName.re_match_ignorecase _ name).
    + apply prefix_self_app.
    + rewrite <- (string_app_nil_r name) at 2. apply prefix_self_app.
  - apply rename_unchanged_iff.
  - unfold HttpParaName.rename.
    destruct (HttpParaName.re_match_ignorecase _ name); [intros _ | done].
    rewrite !length_string_app. unfold HttpParaName.code_tag.
    rewrite length_zfill. cbn [String.length]. lia.
Qed.

Lemma rename_extends_name_witness :
  HttpParaName.rename "SETTINGS_ENABLE_PUSH" 2 = "SETTINGS_ENABLE_PUSH" /\
  (String.length "reserved" + 9 <=
   String.length (HttpParaName.rename "reserved" 2))%nat.
Proof.
  destruct (rename_extends_name "SETTINGS_ENABLE_PUSH" 2) as (_ & Hiff & _).
  destruct (rename_extends_name "reserved" 2) as (_ & _ & Hlen).
  split.
  - apply Hiff. vm_compute. reflexivity.
  - apply Hlen. vm_compute. discriminate.
Defined.

(** The letter case of a name does not decide whether it is tagged. *)
Theorem rename_ignores_case (name : string) (code : Z) :
  (HttpParaName.rename (HttpParaName.upper name) code = HttpParaName.upper name
   <-> HttpParaName.rename name code = name) /\
  (HttpParaName.rename (HttpParaName.lower name) code = HttpParaName.lower name
   <-> HttpParaName.rename name code = name).
Proof.
  rewrite !rename_unchanged_iff, re_match_upper, re_match_lower. done.
Qed.

Lemma rename_ignores_case_witness :
  HttpParaName.rename (HttpParaName.upper "Unassigned") 7 <>
  HttpParaName.upper "Unassigned".
Proof.
  intros H.
  apply (proj1 (proj1 (rename_ignores_case "Unassigned" 7))) in H.
  vm_compute in H. discriminate.
Defined.

(** Two different non-negative codes never give a tagged name the same
    label. *)
Theorem rename_code_injective (name : string) (c1 c2 : Z) :
  (0 <= c1)%Z -> (0 <= c2)%Z ->
  HttpParaName.rename name c1 <> name ->
  c1 <> c2 ->
  HttpParaName.rename name c1 <> HttpParaName.rename name c2.
Proof.
  intros H1 H2 Hm Hne H. apply Hne. unfold HttpParaName.rename in *.
  destruct (HttpParaName.re_match_ignorecase _ name); [|done].
  apply string_app_inv_head in H.
  apply (string_app_inv_head " [0x") in H.
  apply string_app_inv_tail in H.
  pose proof (code_tag_parse c1 H1) as P1.
  rewrite H, (code_tag_parse c2 H2) in P1. injection P1. lia.
Qed.

Lemma rename_code_injective_witness :
  HttpParaName.rename "Reserved" 1 <> HttpParaName.rename "Reserved" 16.
Proof.
  apply (rename_code_injective "Reserved" 1 16); [lia | lia | | lia].
  vm_compute. discriminate.
Defined.

(** The bracketed code has at least four characters, and exactly four
    for a code from 0 to 0xFFFF. *)
Theorem code_tag_width (code : Z) :
  (4 <= String.length (HttpParaName.code_tag code))%nat /\
  ((0 <= code < 65536)%Z -> String.length (HttpParaName.code_tag code) = 4%nat).
Proof.
  split.
  - unfold HttpParaName.code_tag. rewrite length_zfill. lia.
  - intros Hc. apply Nat.eqb_eq.
    apply (all_from_spec (Z.to_nat 65536) 0 _ code code_tag_small_check).
    rewrite Z2Nat.id; lia.
Qed.

Lemma code_tag_width_witness :
  String.length (HttpParaName.code_tag 0xFFFF) = 4%nat.
Proof. apply (code_tag_width 0xFFFF). lia. Defined.
